(** * SpaceTraveling blog: reading time, sibling navigation and "load more"

    A shallow embedding of the computing parts of
    - [src/pages/post/[slug].tsx]  (the post page: [Post], [getStaticProps]),
    - its earlier revision (same [totalWords] / [readTime] code), and
    - the listing page ([Home], [handleNextPosts]),
    together with the properties the specification states about them.

    JavaScript values are modelled as the code uses them: a value that may be
    [undefined] or [null] is an [option], a thrown exception is the left
    summand of a result, strings are [string], an array is a [list]. *)

From Stdlib Require Import List String Ascii ZArith QArith Qround Lia Bool.
From Stdlib Require Import DecimalString Permutation.
Import ListNotations.

Close Scope Q_scope.
Local Open Scope string_scope.
Local Open Scope list_scope.

(** ** JavaScript primitives used by the pages *)

Module JS.

(** Exceptions the modelled code can throw or receive. [FetchError] is a
    rejected [fetch(..).then(r => r.json())] promise (transport failure or a
    body that is not JSON); [TypeError] is a property read on [undefined]. *)
Inductive exn : Type :=
| FetchError (msg : string)
| TypeError (msg : string).

(** A computation that either throws or returns. *)
Definition result (A : Type) : Type := (exn + A)%type.

(** [s.split(' ')]: cut at every single space character.  The empty string
    gives one empty token, and consecutive spaces give empty tokens. *)
Fixpoint split_space (s : string) : list string :=
  match s with
  | EmptyString => [EmptyString]
  | String c rest =>
      if Ascii.eqb c " "%char then EmptyString :: split_space rest
      else match split_space rest with
           | [] => [String c EmptyString]
           | tok :: toks => String c tok :: toks
           end
  end.

(** The characters JavaScript's [\s] matches among the ASCII ones: tab,
    line feed, vertical tab, form feed, carriage return and space. *)
Definition is_whitespace (c : ascii) : bool :=
  let n := nat_of_ascii c in
  Nat.eqb n 9 || Nat.eqb n 10 || Nat.eqb n 11 || Nat.eqb n 12
  || Nat.eqb n 13 || Nat.eqb n 32.

(** Splitting at whitespace, as the specification words it: cut at every
    whitespace character, keeping empty tokens. *)
Fixpoint split_whitespace (s : string) : list string :=
  match s with
  | EmptyString => [EmptyString]
  | String c rest =>
      if is_whitespace c then EmptyString :: split_whitespace rest
      else match split_whitespace rest with
           | [] => [String c EmptyString]
           | tok :: toks => String c tok :: toks
           end
  end.

(** The words of a string read left to right: [cur] is the word being
    read; a space ends it (and only a space does), the end of the string
    ends the last one. *)
Fixpoint scan_spaces (cur : string) (s : string) : list string :=
  match s with
  | EmptyString => [cur]
  | String c rest =>
      if Ascii.eqb c " "%char then cur :: scan_spaces EmptyString rest
      else scan_spaces (cur ++ String c EmptyString) rest
  end.

Definition words_at_spaces (s : string) : list string :=
  scan_spaces EmptyString s.

(** [toks.join(' ')]. *)
Fixpoint join_space (toks : list string) : string :=
  match toks with
  | [] => EmptyString
  | [t] => t
  | t :: ts => t ++ String " "%char (join_space ts)
  end.

(** Number of space characters of a string. *)
Fixpoint count_spaces (s : string) : nat :=
  match s with
  | EmptyString => 0
  | String c rest =>
      (if Ascii.eqb c " "%char then 1 else 0) + count_spaces rest
  end.

(** Truthiness of a string: every string but the empty one. *)
Definition truthy_string (s : string) : bool :=
  match s with
  | EmptyString => false
  | String _ _ => true
  end.

(** Truthiness of a [string | null] value. *)
Definition truthy_opt_string (s : option string) : bool :=
  match s with
  | None => false
  | Some s => truthy_string s
  end.

(** The numbers that occur: [NaN] and integers. *)
Inductive number : Type :=
| NaN
| Num (z : Z).

(** Truthiness of a number: neither [NaN] nor [0]. *)
Definition truthy_number (n : number) : bool :=
  match n with
  | NaN => false
  | Num z => negb (Z.eqb z 0)
  end.

(** [Math.ceil(len / d)] where [len] is [arr?.length]: [undefined / d] is
    [NaN]; an array length divided by [d] is a rational whose ceiling is
    taken.  (Array lengths are below 2^32, where the double division and
    [Math.ceil] agree with the exact rational computation.) *)
Definition Math_ceil_div (len : option nat) (d : positive) : number :=
  match len with
  | None => NaN
  | Some n => Num (Qceiling (Z.of_nat n # d))
  end.

(** [`${z}`] for an integer. *)
Definition string_of_Z (z : Z) : string :=
  NilZero.string_of_int (Z.to_int z).

(** [`${n}`] for a number. *)
Definition string_of_number (n : number) : string :=
  match n with
  | NaN => "NaN"
  | Num z => string_of_Z z
  end.

(** [`${v}`] for a value that is a string or else [undefined] / [null]:
    [absent] is the text JavaScript prints for the missing value. *)
Definition template_opt (absent : string) (v : option string) : string :=
  match v with
  | Some s => s
  | None => absent
  end.

End JS.

(** ** The content API (Prismic), an external collaborator *)

Module Prismic.

(** One rich-text span of a block body: [{ text: string }]. *)
Record Span : Type := { text : string }.

(** One content block: [{ heading, body }]. *)
Record Block : Type := { heading : string; body : list Span }.

(** The [data] of a document of type [posts]. *)
Record DocumentData : Type := {
  title : string;
  subtitle : string;
  author : string;
  banner_url : option string;
  content : option (list Block)
}.

(** A document as the API returns it. *)
Record Document : Type := {
  id : string;
  uid : option string;
  first_publication_date : option string;
  last_publication_date : option string;
  data : DocumentData
}.

(** [Prismic.predicates.at(path, value)]. *)
Inductive Predicate : Type :=
| at_ (path value : string).

(** The options the pages pass to [query]. *)
Record QueryOptions : Type := {
  pageSize : nat;
  after : option string;
  orderings : string
}.

Record QueryResponse : Type := {
  results : list Document;
  next_page : option string
}.

(** The client: [getByUID(type, uid, { ref })], which resolves to
    [undefined] when there is no such document, and [query].  Both are
    taken as answered: a request the backend rejects is not modelled
    here, and what is proved about the pages is about the answers. *)
Record Client : Type := {
  getByUID : string -> string -> option string -> option Document;
  query : list Predicate -> QueryOptions -> QueryResponse
}.

Definition ascending : string := "[document.first_publication_date]".
Definition descending : string := "[document.first_publication_date desc]".

(** The documents that follow the one with identifier [i] in a listing. *)
Fixpoint docs_after (i : string) (docs : list Document) : list Document :=
  match docs with
  | [] => []
  | d :: rest => if String.eqb (id d) i then rest else docs_after i rest
  end.

(** A reference client over a store [db] listed in ascending publication
    order: [query] lists the store in the requested order, keeps what
    follows the [after] document and cuts at [pageSize]. *)
Definition listing (db : list Document) (o : QueryOptions) : list Document :=
  let ordered := if String.eqb (orderings o) descending then rev db else db in
  let positioned :=
    match after o with
    | Some i => docs_after i ordered
    | None => ordered
    end in
  firstn (pageSize o) positioned.

Definition store_client (db : list Document) : Client :=
  {| getByUID := fun _ u _ =>
       find (fun d => match uid d with
                      | Some v => String.eqb v u
                      | None => false
                      end) db;
     query := fun _ o => {| results := listing db o; next_page := None |} |}.

End Prismic.

(** ** The post page, [src/pages/post/[slug].tsx] *)

Module PostPage.
Import JS.

(** [post.data] as [getStaticProps] builds it. *)
Record PostData : Type := {
  title : string;
  subtitle : string;
  author : string;
  banner : option string;
  content : option (list Prismic.Block)
}.

(** The [post] prop; [data] is missing when the object is not a post. *)
Record Post : Type := {
  uid : option string;
  first_publication_date : option string;
  last_publication_date : option string;
  data : option PostData
}.

(** One side of the sibling navigation: [{ title, href }]. *)
Record PageLink : Type := { link_title : string; href : string }.

Record Pagination : Type := {
  nextPage : option PageLink;
  prevPage : option PageLink
}.

(** The [props] of the page. *)
Record PostProps : Type := {
  post : Post;
  preview : bool;
  pagination : Pagination
}.

(** *** The [Post] component: word count and reading time *)

Section ReadingTime.

(** [RichText.asText] of prismic-dom, an external library: the body of a
    block rendered to plain text. *)
Variable asText : list Prismic.Span -> string.

(** The tokens a block pushes for its heading: none when the heading is
    falsy. *)
Definition heading_words (b : Prismic.Block) : list string :=
  if truthy_string (Prismic.heading b) then split_space (Prismic.heading b) else [].

(** [RichText.asText(content.body).split(' ')]. *)
Definition wordsContent (b : Prismic.Block) : list string :=
  split_space (asText (Prismic.body b)).

(** The callback of [content.reduce]: push the heading tokens when the
    heading is truthy, then push the body tokens, return the array.  (The
    earlier revision of the page tests [!!content.heading], the same
    truthiness.) *)
Definition reducer (total : list string) (b : Prismic.Block) : list string :=
  let total' :=
    if truthy_string (Prismic.heading b)
    then total ++ split_space (Prismic.heading b)
    else total in
  total' ++ wordsContent b.

(** [content.reduce(reducer, [])]. *)
Definition words_of (blocks : list Prismic.Block) : list string :=
  fold_left reducer blocks [].

(** [post?.data?.content.reduce(reducer, [])]: [undefined] when [post] or
    [post.data] is missing (the optional chain stops there); a
    [TypeError] when [data] is there and [content] is not, as [.reduce]
    is read from [undefined]. *)
Definition totalWords (p : option Post) : result (option (list string)) :=
  match p with
  | None => inr None
  | Some p =>
      match data p with
      | None => inr None
      | Some d =>
          match content d with
          | None =>
              inl (TypeError "Cannot read property 'reduce' of undefined")
          | Some blocks => inr (Some (words_of blocks))
          end
      end
  end.

(** [Math.ceil(totalWords?.length / 200)]. *)
Definition readTime (p : option Post) : result number :=
  match totalWords p with
  | inl e => inl e
  | inr tw => inr (Math_ceil_div (option_map (@List.length string) tw) 200)
  end.

(** The estimator on a sequence of blocks: what [readTime] computes for
    a post with that content. *)
Definition estimate (blocks : list Prismic.Block) : Z :=
  Qceiling (Z.of_nat (List.length (words_of blocks)) # 200).

(** What one block adds to the array, written without the accumulator:
    the [split(' ')] of the heading when the heading is not the empty
    string, then the [split(' ')] of the rendered body. *)
Definition block_tokens (b : Prismic.Block) : list string :=
  (if String.eqb (Prismic.heading b) "" then []
   else split_space (Prismic.heading b))
  ++ split_space (asText (Prismic.body b)).

Definition tokens_in_order (blocks : list Prismic.Block) : list string :=
  flat_map block_tokens blocks.

(** The number of tokens one block adds, and the sum over the blocks. *)
Definition block_count (b : Prismic.Block) : nat :=
  (if String.eqb (Prismic.heading b) "" then 0
   else List.length (split_space (Prismic.heading b)))
  + List.length (split_space (asText (Prismic.body b))).

Fixpoint total_count (blocks : list Prismic.Block) : nat :=
  match blocks with
  | [] => 0
  | b :: rest => block_count b + total_count rest
  end.

(** The specification's reading of the total: per block, the count of
    the whitespace-split tokens of the heading when the heading is
    non-empty, plus that of the body rendered to plain text; summed over
    the blocks. *)
Definition spec_block_count (b : Prismic.Block) : nat :=
  (if String.eqb (Prismic.heading b) "" then 0
   else List.length (split_whitespace (Prismic.heading b)))
  + List.length (split_whitespace (asText (Prismic.body b))).

Fixpoint spec_total (blocks : list Prismic.Block) : nat :=
  match blocks with
  | [] => 0
  | b :: rest => spec_block_count b + spec_total rest
  end.

(** The amended reading: the words are those separated by the space
    character alone.  Per block, the words of the heading when the
    heading is non-empty, then the words of the rendered body; and the
    total counts, per block, one more than the spaces of a non-empty
    heading plus one more than the spaces of the rendered body. *)
Definition amended_block_tokens (b : Prismic.Block) : list string :=
  (if String.eqb (Prismic.heading b) "" then []
   else words_at_spaces (Prismic.heading b))
  ++ words_at_spaces (asText (Prismic.body b)).

Definition amended_tokens (blocks : list Prismic.Block) : list string :=
  flat_map amended_block_tokens blocks.

Definition amended_block_count (b : Prismic.Block) : nat :=
  (if String.eqb (Prismic.heading b) "" then 0
   else S (count_spaces (Prismic.heading b)))
  + S (count_spaces (asText (Prismic.body b))).

Definition amended_total (blocks : list Prismic.Block) : nat :=
  list_sum (map amended_block_count blocks).

End ReadingTime.

(** [post?.data] and [post?.data?.content] as plain reads: missing as
    soon as one link of the chain is. *)
Definition data_of (p : option Post) : option PostData :=
  match p with
  | None => None
  | Some q => data q
  end.

Definition content_of (p : option Post) : option (list Prismic.Block) :=
  match data_of p with
  | None => None
  | Some d => content d
  end.

(** The clock slot: [readTime ? `${readTime} min` : 'Tempo de leitura']. *)
Definition render_clock (rt : number) : string :=
  if truthy_number rt then string_of_number rt ++ " min"
  else "Tempo de leitura".

(** The clock slot of the page for a given [post] prop. *)
Definition clock_slot (asText : list Prismic.Span -> string) (p : option Post)
  : result string :=
  match readTime asText p with
  | inl e => inl e
  | inr rt => inr (render_clock rt)
  end.

(** The 'edited at' marker is rendered when
    [post?.last_publication_date] is truthy. *)
Definition shows_lastEdit (p : option Post) : bool :=
  match p with
  | None => false
  | Some p => truthy_opt_string (last_publication_date p)
  end.

(** prismic-dom's [asText] with its default separator: the span texts
    joined by one space.  It serves the examples; the properties below are
    proved for any [asText]. *)
Definition asText_joined (spans : list Prismic.Span) : string :=
  join_space (map Prismic.text spans).

(** *** [getStaticProps] *)

(** [first !== last] on two [string | null] values. *)
Definition strict_neq (a b : option string) : bool :=
  match a, b with
  | None, None => false
  | Some x, Some y => negb (String.eqb x y)
  | _, _ => true
  end.

(** The options of the two sibling queries. *)
Definition sibling_options (current : string) (ordering : string)
  : Prismic.QueryOptions :=
  {| Prismic.pageSize := 1;
     Prismic.after := Some current;
     Prismic.orderings := ordering |}.

Definition posts_type : list Prismic.Predicate :=
  [Prismic.at_ "document.type" "posts"].

(** [const { results: [doc] } = await prismic.query(..)]. *)
Definition first_result (r : Prismic.QueryResponse) : option Prismic.Document :=
  match Prismic.results r with
  | [] => None
  | d :: _ => Some d
  end.

(** [{ title: doc.data.title, href: `/post/${doc.uid}` }]. *)
Definition page_link (d : Prismic.Document) : PageLink :=
  {| link_title := Prismic.title (Prismic.data d);
     href := "/post/" ++ template_opt "undefined" (Prismic.uid d) |}.

(** The [post] object built from the response. *)
Definition post_of (response : Prismic.Document) : Post :=
  {| uid := Prismic.uid response;
     first_publication_date := Prismic.first_publication_date response;
     last_publication_date :=
       if strict_neq (Prismic.first_publication_date response)
                     (Prismic.last_publication_date response)
       then Prismic.last_publication_date response
       else None;
     data := Some
       {| title := Prismic.title (Prismic.data response);
          subtitle := Prismic.subtitle (Prismic.data response);
          author := Prismic.author (Prismic.data response);
          banner := Prismic.banner_url (Prismic.data response);
          content := Prismic.content (Prismic.data response) |} |}.

(** The [pagination] object built from the two first results. *)
Definition pagination_of (nextDoc prevDoc : option Prismic.Document)
  : Pagination :=
  {| nextPage := match nextDoc with
                 | Some d => Some (page_link d)
                 | None => None
                 end;
     prevPage := match prevDoc with
                 | Some d => Some (page_link d)
                 | None => None
                 end |}.

(** [getStaticProps({ params: { slug }, preview, previewData })], together
    with the list of queries it sends, in the order it sends them.  A
    [slug] without document makes the read of [response.id] throw. *)
Definition getStaticProps (prismic : Prismic.Client) (slug : string)
    (preview_mode : bool) (previewRef : option string)
  : result (PostProps * list Prismic.QueryOptions) :=
  match Prismic.getByUID prismic "posts" slug previewRef with
  | None => inl (TypeError "Cannot read property 'id' of undefined")
  | Some response =>
      let q_next := sibling_options (Prismic.id response) Prismic.ascending in
      let nextDoc := first_result (Prismic.query prismic posts_type q_next) in
      let q_prev := sibling_options (Prismic.id response) Prismic.descending in
      let prevDoc := first_result (Prismic.query prismic posts_type q_prev) in
      inr ({| post := post_of response;
              preview := preview_mode;
              pagination := pagination_of nextDoc prevDoc |},
           [q_next; q_prev])
  end.

End PostPage.

(** ** The listing page: the [Home] component *)

Module HomePage.
Import JS.

(** [post.data] of a summary. *)
Record PostData : Type := {
  title : string;
  subtitle : string;
  author : string
}.

(** A post summary as the page keeps it. *)
Record Post : Type := {
  uid : option string;
  first_publication_date : option string;
  data : PostData
}.

(** An element of [results] in a fetched JSON body; [data] can be missing
    in a malformed answer. *)
Record RawPost : Type := {
  raw_uid : option string;
  raw_first_publication_date : option string;
  raw_data : option PostData
}.

(** A fetched JSON body; [results] can be missing in a malformed answer. *)
Record PostsResponse : Type := {
  results : option (list RawPost);
  next_page : option string
}.

(** [postsPagination], the prop of the page. *)
Record PostPagination : Type := {
  pp_next_page : option string;
  pp_results : list Post
}.

(** The two [useState] cells of [Home]. *)
Record HomeState : Type := {
  posts : list Post;
  nextPage : option string
}.

(** [useState(postsPagination.results)], [useState(postsPagination.next_page)]. *)
Definition Home_init (postsPagination : PostPagination) : HomeState :=
  {| posts := pp_results postsPagination;
     nextPage := pp_next_page postsPagination |}.

(** *** Statements of the handler: state cells and exceptions

    A statement runs on the state cells and either throws or returns; a
    throw keeps the cells as they are at that point (nothing is rolled
    back). *)
Definition M (A : Type) : Type := HomeState -> HomeState * result A.

Definition ret {A} (a : A) : M A := fun st => (st, inr a).

Definition bind {A B} (m : M A) (k : A -> M B) : M B :=
  fun st =>
    match m st with
    | (st', inl e) => (st', inl e)
    | (st', inr a) => k a st'
    end.

Definition throw {A} (e : exn) : M A := fun st => (st, inl e).

(** [await p] for a promise that settles as [r]. *)
Definition await {A} (r : result A) : M A := fun st => (st, r).

Definition setPosts (ps : list Post) : M unit :=
  fun st => ({| posts := ps; nextPage := nextPage st |}, inr tt).

Definition setNextPage (c : option string) : M unit :=
  fun st => ({| posts := posts st; nextPage := c |}, inr tt).

Notation "x <- m ;; k" := (bind m (fun x => k))
  (at level 61, m at next level, right associativity).
Notation "m ;;; k" := (bind m (fun _ => k))
  (at level 61, right associativity).

(** The callback of [postsResponse.results.map]: copy the fields of one
    post; reading [post.data.title] throws when [data] is missing. *)
Definition copy_post (p : RawPost) : result Post :=
  match raw_data p with
  | None => inl (TypeError "Cannot read property 'title' of undefined")
  | Some d =>
      inr {| uid := raw_uid p;
             first_publication_date := raw_first_publication_date p;
             data := {| title := title d;
                        subtitle := subtitle d;
                        author := author d |} |}
  end.

(** [arr.map(f)] for a callback that can throw. *)
Fixpoint array_map {A B} (f : A -> result B) (arr : list A) : result (list B) :=
  match arr with
  | [] => inr []
  | a :: rest =>
      match f a with
      | inl e => inl e
      | inr b =>
          match array_map f rest with
          | inl e => inl e
          | inr bs => inr (b :: bs)
          end
      end
  end.

(** [postsResponse.results.map(copy)]. *)
Definition addNewPosts_of (postsResponse : PostsResponse) : result (list Post) :=
  match results postsResponse with
  | None => inl (TypeError "Cannot read property 'map' of undefined")
  | Some raws => array_map copy_post raws
  end.

(** The address fetched: [`${nextPage}`]. *)
Definition fetch_url (cursor : option string) : string :=
  template_opt "null" cursor.

(** The part of [handleNextPosts] after the [await]: [render] holds the
    [posts] and [nextPage] the handler closed over, [settled] is how the
    fetch ended. *)
Definition handleNextPosts_resume (render : HomeState)
    (settled : result PostsResponse) : M unit :=
  postsResponse <- await settled ;;
  addNewPosts <- await (addNewPosts_of postsResponse) ;;
  setPosts (posts render ++ addNewPosts) ;;;
  setNextPage (next_page postsResponse).

Section Handler.

(** [fetch(url).then(response => response.json())]: how the request for
    an address ends. *)
Variable fetch : string -> result PostsResponse.

(** [handleNextPosts], as defined by the render that saw [render]. *)
Definition handleNextPosts (render : HomeState) : M unit :=
  handleNextPosts_resume render (fetch (fetch_url (nextPage render))).

(** One [loadMore]: the handler of the current render runs to its end. *)
Definition loadMore (st : HomeState) : HomeState * result unit :=
  handleNextPosts st st.

(** [{nextPage && <button onClick={handleNextPosts} ..>}]: the button is
    there when [nextPage] is truthy. *)
Definition loadMore_button (st : HomeState) : bool :=
  truthy_opt_string (nextPage st).

(** The page with its requests in flight: the cells, and for every
    started request the render its handler closed over. *)
Record Page : Type := {
  cells : HomeState;
  in_flight : list HomeState
}.

(** What can happen on the page. *)
Inductive action : Type :=
| Click     (* the button is pressed: [handleNextPosts] starts *)
| Settle.   (* a request in flight ends: its handler resumes *)

(** A click needs the button, and starts the handler of the current
    render; a request in flight settles and its handler runs on the
    cells as they are then. *)
Inductive Home_step : Page -> action -> Page -> Prop :=
| step_click (pg : Page) :
    loadMore_button (cells pg) = true ->
    Home_step pg Click
      {| cells := cells pg; in_flight := in_flight pg ++ [cells pg] |}
| step_settle (pg : Page) (before after : list HomeState)
    (render : HomeState) :
    in_flight pg = before ++ render :: after ->
    Home_step pg Settle
      {| cells := fst (handleNextPosts render (cells pg));
         in_flight := before ++ after |}.

Inductive Home_run : Page -> list action -> Page -> Prop :=
| run_done (pg : Page) : Home_run pg [] pg
| run_step (pg pg' pg'' : Page) (a : action) (rest : list action) :
    Home_step pg a pg' -> Home_run pg' rest pg'' ->
    Home_run pg (a :: rest) pg''.

End Handler.

End HomePage.

(** ** The earlier revision of the post page *)

Module PostPageEarlier.
Import JS.

(** The [post] prop of the earlier revision: no [last_publication_date]. *)
Record Post : Type := {
  uid : option string;
  first_publication_date : option string;
  data : option PostPage.PostData
}.

Section ReadingTime.

Variable asText : list Prismic.Span -> string.

(** The callback of [content.reduce], with the test [!!content.heading]. *)
Definition reducer (total : list string) (b : Prismic.Block) : list string :=
  let total' :=
    if negb (negb (truthy_string (Prismic.heading b)))
    then total ++ split_space (Prismic.heading b)
    else total in
  total' ++ split_space (asText (Prismic.body b)).

(** [post?.data?.content.reduce(reducer, [])]. *)
Definition totalWords (p : option Post) : result (option (list string)) :=
  match p with
  | None => inr None
  | Some p =>
      match data p with
      | None => inr None
      | Some d =>
          match PostPage.content d with
          | None =>
              inl (TypeError "Cannot read property 'reduce' of undefined")
          | Some blocks => inr (Some (fold_left reducer blocks []))
          end
      end
  end.

(** [Math.ceil(totalWords?.length / 200)]. *)
Definition readTime (p : option Post) : result number :=
  match totalWords p with
  | inl e => inl e
  | inr tw => inr (Math_ceil_div (option_map (@List.length string) tw) 200)
  end.

End ReadingTime.

(** [getStaticProps({ params: { slug } })]: the document is read without a
    preview reference and no sibling is looked up. *)
Definition getStaticProps (prismic : Prismic.Client) (slug : string)
  : result Post :=
  match Prismic.getByUID prismic "posts" slug None with
  | None => inl (TypeError "Cannot read property 'uid' of undefined")
  | Some response =>
      inr {| uid := Prismic.uid response;
             first_publication_date := Prismic.first_publication_date response;
             data := Some
               {| PostPage.title := Prismic.title (Prismic.data response);
                  PostPage.subtitle := Prismic.subtitle (Prismic.data response);
                  PostPage.author := Prismic.author (Prismic.data response);
                  PostPage.banner := Prismic.banner_url (Prismic.data response);
                  PostPage.content := Prismic.content (Prismic.data response) |} |}
  end.

End PostPageEarlier.

(** ** The listing page: [getStaticProps] and repeated loading *)

Module HomeServer.
Import JS HomePage.

(** The callback of [postsResponse.results.map] in [getStaticProps]: the
    same field copy as in [handleNextPosts], on a document of the API. *)
Definition summary_of (post : Prismic.Document) : Post :=
  {| uid := Prismic.uid post;
     first_publication_date := Prismic.first_publication_date post;
     data := {| title := Prismic.title (Prismic.data post);
                subtitle := Prismic.subtitle (Prismic.data post);
                author := Prismic.author (Prismic.data post) |} |}.

(** The [fetch] option of the listing query. *)
Definition listing_fields : list string :=
  ["posts.title"; "posts.subtitle"; "posts.author"].

(** [orderings] and [pageSize] of the listing query; no [after]. *)
Definition listing_options : Prismic.QueryOptions :=
  {| Prismic.pageSize := 3;
     Prismic.after := None;
     Prismic.orderings := "[document.first_publication_date desc]" |}.

(** [getStaticProps] of the listing page: [query] is the client's query
    taking the [fetch] fields as well; the result is [postsPagination]. *)
Definition getStaticProps
    (query : list string -> list Prismic.Predicate -> Prismic.QueryOptions
             -> Prismic.QueryResponse)
  : PostPagination :=
  let postsResponse :=
    query listing_fields [Prismic.at_ "document.type" "posts"] listing_options in
  {| pp_next_page := Prismic.next_page postsResponse;
     pp_results := map summary_of (Prismic.results postsResponse) |}.

(** [revalidate: 1800]. *)
Definition revalidate : nat := 1800.

Section Loading.

Variable fetch : string -> result PostsResponse.

(** [n] calls of [loadMore], each after the one before has ended. *)
Fixpoint loadMore_times (n : nat) (st : HomeState) : HomeState :=
  match n with
  | 0 => st
  | S k => loadMore_times k (fst (loadMore fetch st))
  end.

(** The answers the backend gives when followed from cursor [c]: each is
    the answer at the cursor the one before handed out. *)
Fixpoint pages_follow (c : option string) (pages : list PostsResponse) : Prop :=
  match pages with
  | [] => True
  | r :: rest => fetch (fetch_url c) = inr r /\ pages_follow (next_page r) rest
  end.

(** The cursor left after following the answers. *)
Fixpoint last_cursor (c : option string) (pages : list PostsResponse)
  : option string :=
  match pages with
  | [] => c
  | r :: rest => last_cursor (next_page r) rest
  end.

End Loading.

End HomeServer.

(** ** Sample data *)

Module Samples.
Import JS PostPage.

(** A block of one word and no heading. *)
Definition one_word : Prismic.Block :=
  {| Prismic.heading := "";
     Prismic.body := [ {| Prismic.text := "word" |} ] |}.

(** A block with an empty body. *)
Definition blank_block : Prismic.Block :=
  {| Prismic.heading := "Fim"; Prismic.body := [] |}.

Definition sample_data (c : option (list Prismic.Block)) : PostData :=
  {| title := "Como utilizar Hooks";
     subtitle := "Pensando em sincronizacao";
     author := "Joseph Oliveira";
     banner := None;
     content := c |}.

Definition sample_post (d : option PostData) : Post :=
  {| uid := Some "como-utilizar-hooks";
     first_publication_date := Some "2021-03-15T19:25:28+0000";
     last_publication_date := None;
     data := d |}.

(** A post whose [data] is there and whose [content] is not. *)
Definition post_without_content : Post := sample_post (Some (sample_data None)).

(** Three published posts, oldest first. *)
Definition document (i u t : string) (first last : option string)
  : Prismic.Document :=
  {| Prismic.id := i;
     Prismic.uid := Some u;
     Prismic.first_publication_date := first;
     Prismic.last_publication_date := last;
     Prismic.data :=
       {| Prismic.title := t;
          Prismic.subtitle := "";
          Prismic.author := "Joseph Oliveira";
          Prismic.banner_url := None;
          Prismic.content := Some [one_word] |} |}.

Definition doc_a : Prismic.Document :=
  document "YA1" "mapas-com-react" "Mapas com React"
    (Some "2021-03-01T10:00:00+0000") (Some "2021-03-01T10:00:00+0000").

Definition doc_b : Prismic.Document :=
  document "YB2" "como-utilizar-hooks" "Como utilizar Hooks"
    (Some "2021-03-15T19:25:28+0000") (Some "2021-03-20T08:00:00+0000").

Definition doc_c : Prismic.Document :=
  document "YC3" "criando-um-app-cra" "Criando um app CRA do zero"
    (Some "2021-03-25T19:27:35+0000") (Some "2021-03-25T19:27:35+0000").

Definition blog : Prismic.Client := Prismic.store_client [doc_a; doc_b; doc_c].

(** Summaries as a listing request returns them. *)
Definition raw (u t : string) : HomePage.RawPost :=
  {| HomePage.raw_uid := Some u;
     HomePage.raw_first_publication_date := Some "2021-03-15T19:25:28+0000";
     HomePage.raw_data :=
       Some {| HomePage.title := t;
               HomePage.subtitle := "";
               HomePage.author := "Joseph Oliveira" |} |}.

Definition summary (u t : string) : HomePage.Post :=
  {| HomePage.uid := Some u;
     HomePage.first_publication_date := Some "2021-03-15T19:25:28+0000";
     HomePage.data :=
       {| HomePage.title := t;
          HomePage.subtitle := "";
          HomePage.author := "Joseph Oliveira" |} |}.

(** A backend with two further pages: [p1, p2] at cursor [c1], then
    [p3] at cursor [c2], then nothing; every other address fails. *)
Definition two_pages (url : string) : result HomePage.PostsResponse :=
  if String.eqb url "c1" then
    inr {| HomePage.results := Some [raw "p1" "Um"; raw "p2" "Dois"];
           HomePage.next_page := Some "c2" |}
  else if String.eqb url "c2" then
    inr {| HomePage.results := Some [raw "p3" "Tres"];
           HomePage.next_page := None |}
  else inl (FetchError "Failed to fetch").

Definition listing_at (ps : list HomePage.Post) (c : option string)
  : HomePage.HomeState :=
  {| HomePage.posts := ps; HomePage.nextPage := c |}.

(** A document without content. *)
Definition doc_bare : Prismic.Document :=
  {| Prismic.id := "YD4";
     Prismic.uid := Some "rascunho";
     Prismic.first_publication_date := None;
     Prismic.last_publication_date := None;
     Prismic.data :=
       {| Prismic.title := "Rascunho";
          Prismic.subtitle := "";
          Prismic.author := "Joseph Oliveira";
          Prismic.banner_url := None;
          Prismic.content := None |} |}.

(** A block with a heading of two words and a body of three. *)
Definition titled_block : Prismic.Block :=
  {| Prismic.heading := "A B";
     Prismic.body := [ {| Prismic.text := "C D E" |} ] |}.

(** A summary without [data], as a malformed answer has it. *)
Definition raw_broken : HomePage.RawPost :=
  {| HomePage.raw_uid := Some "p9";
     HomePage.raw_first_publication_date := None;
     HomePage.raw_data := None |}.

(** A backend whose only page holds a good and a malformed summary. *)
Definition broken_page (url : string) : result HomePage.PostsResponse :=
  inr {| HomePage.results := Some [raw "p1" "Um"; raw_broken];
         HomePage.next_page := Some "c2" |}.

(** The first page of the listing as the server query answers it. *)
Definition first_listing (_ : list string) (_ : list Prismic.Predicate)
    (_ : Prismic.QueryOptions) : Prismic.QueryResponse :=
  {| Prismic.results := [doc_c; doc_b; doc_a];
     Prismic.next_page := Some "c1" |}.

(** The two answers of [two_pages]. *)
Definition page_one : HomePage.PostsResponse :=
  {| HomePage.results := Some [raw "p1" "Um"; raw "p2" "Dois"];
     HomePage.next_page := Some "c2" |}.

Definition page_two : HomePage.PostsResponse :=
  {| HomePage.results := Some [raw "p3" "Tres"];
     HomePage.next_page := None |}.

(** [n + 1] words separated by tabs. *)
Fixpoint tab_words (n : nat) : string :=
  match n with
  | 0 => "w"
  | S k => String "w"%char (String "009"%char (tab_words k))
  end.

(** A block whose heading is 200 words separated by tabs. *)
Definition tab_block : Prismic.Block :=
  {| Prismic.heading := tab_words 199;
     Prismic.body := [ {| Prismic.text := "fim" |} ] |}.

End Samples.

(** * Properties *)

(** ** Splitting at spaces *)

Module SplitFacts.
Import JS.

Lemma split_space_not_nil (s : string) : split_space s <> [].
Proof.
  induction s as [|c rest IH]; simpl; [discriminate|].
  destruct (Ascii.eqb c " "%char); [discriminate|].
  destruct (split_space rest); discriminate.
Qed.

(** One token more than there are spaces: nothing is filtered out. *)
Lemma split_space_length (s : string) :
  List.length (split_space s) = S (count_spaces s).
Proof.
  induction s as [|c rest IH]; simpl; [reflexivity|].
  destruct (Ascii.eqb c " "%char); simpl.
  - now rewrite IH.
  - destruct (split_space rest) as [|tok toks] eqn:E; simpl in *; lia.
Qed.

(** Joining the tokens with spaces gives the string back. *)
Lemma join_split_space (s : string) : join_space (split_space s) = s.
Proof.
  induction s as [|c rest IH]; simpl; [reflexivity|].
  destruct (Ascii.eqb c " "%char) eqn:Ec.
  - apply Ascii.eqb_eq in Ec; subst c.
    destruct (split_space rest) as [|tok toks] eqn:E.
    + now destruct (split_space_not_nil rest).
    + simpl in *. now rewrite IH.
  - destruct (split_space rest) as [|tok toks] eqn:E.
    + now destruct (split_space_not_nil rest).
    + destruct toks as [|tok' toks']; simpl in *; now rewrite <- IH.
Qed.

Lemma append_empty_r (s : string) : (s ++ "")%string = s.
Proof. induction s as [|c s IH]; simpl; [reflexivity|now rewrite IH]. Qed.

Lemma append_snoc_cons (s t : string) (c : ascii) :
  ((s ++ String c "") ++ t)%string = (s ++ String c t)%string.
Proof. induction s as [|a s IH]; simpl; [reflexivity|now rewrite IH]. Qed.

(** Reading the words left to right gives the tokens of [split(' ')]. *)
Lemma scan_spaces_split (s cur : string) :
  scan_spaces cur s
  = match split_space s with
    | [] => [cur]
    | tok :: toks => (cur ++ tok)%string :: toks
    end.
Proof.
  revert cur. induction s as [|c rest IH]; intros cur; simpl.
  - now rewrite append_empty_r.
  - destruct (Ascii.eqb c " "%char).
    + rewrite append_empty_r. f_equal. rewrite IH.
      destruct (split_space rest) as [|tok toks] eqn:E; [|reflexivity].
      now destruct (split_space_not_nil rest).
    + rewrite IH.
      destruct (split_space rest) as [|tok toks] eqn:E.
      * now destruct (split_space_not_nil rest).
      * now rewrite append_snoc_cons.
Qed.

Lemma words_at_spaces_split (s : string) : words_at_spaces s = split_space s.
Proof.
  unfold words_at_spaces. rewrite scan_spaces_split.
  destruct (split_space s) as [|tok toks] eqn:E; [|reflexivity].
  now destruct (split_space_not_nil s).
Qed.

Lemma truthy_string_eqb (s : string) :
  truthy_string s = negb (String.eqb s "").
Proof. now destruct s. Qed.

(** [Math.ceil] of a quotient of integers, by integer division. *)
Lemma Qceiling_frac (n : Z) (d : positive) :
  Qceiling (n # d) = (- ((- n) / Z.pos d))%Z.
Proof. reflexivity. Qed.

(** The ceiling is the least integer multiple that covers [n]. *)
Lemma Qceiling_bounds (n : Z) (d : positive) :
  (Z.pos d * (Qceiling (n # d) - 1) < n <= Z.pos d * Qceiling (n # d))%Z.
Proof.
  rewrite Qceiling_frac.
  pose proof (Z.div_mod (- n) (Z.pos d) ltac:(lia)) as Hdm.
  pose proof (Z.mod_pos_bound (- n) (Z.pos d) ltac:(lia)) as Hb.
  lia.
Qed.

Lemma Qceiling_frac_mono (n m : Z) (d : positive) :
  (n <= m)%Z -> (Qceiling (n # d) <= Qceiling (m # d))%Z.
Proof.
  intros Hnm. rewrite !Qceiling_frac.
  assert ((- m) / Z.pos d <= (- n) / Z.pos d)%Z
    by (apply Z.div_le_mono; lia).
  lia.
Qed.

Lemma Qceiling_frac_nonneg (n : Z) (d : positive) :
  (0 <= n)%Z -> (0 <= Qceiling (n # d))%Z.
Proof.
  intros Hn. pose proof (Qceiling_bounds n d). nia.
Qed.

End SplitFacts.

(** ** The reading time of the post page *)

Module ReadingTimeFacts.
Import JS PostPage SplitFacts Samples.

Section WithAsText.

Variable asText : list Prismic.Span -> string.

Lemma reducer_app (total : list string) (b : Prismic.Block) :
  reducer asText total b = total ++ heading_words b ++ wordsContent asText b.
Proof.
  unfold reducer, heading_words.
  destruct (truthy_string (Prismic.heading b)); simpl.
  - now rewrite <- app_assoc.
  - reflexivity.
Qed.

Lemma fold_reducer (blocks : list Prismic.Block) (acc : list string) :
  fold_left (reducer asText) blocks acc
  = acc ++ flat_map (fun b => heading_words b ++ wordsContent asText b) blocks.
Proof.
  revert acc. induction blocks as [|b rest IH]; intros acc; simpl.
  - now rewrite app_nil_r.
  - rewrite IH, reducer_app, <- !app_assoc. reflexivity.
Qed.

(** Appending a block appends its tokens to the array. *)
Lemma words_of_snoc (blocks : list Prismic.Block) (b : Prismic.Block) :
  words_of asText (blocks ++ [b])
  = words_of asText blocks ++ heading_words b ++ wordsContent asText b.
Proof.
  unfold words_of. rewrite fold_left_app. simpl. apply reducer_app.
Qed.

Lemma heading_words_spec (b : Prismic.Block) :
  heading_words b
  = if String.eqb (Prismic.heading b) "" then []
    else split_space (Prismic.heading b).
Proof.
  unfold heading_words. rewrite truthy_string_eqb.
  now destruct (String.eqb (Prismic.heading b) "").
Qed.

Lemma words_of_tokens_in_order (blocks : list Prismic.Block) :
  words_of asText blocks = tokens_in_order asText blocks.
Proof.
  unfold words_of, tokens_in_order, block_tokens.
  rewrite fold_reducer. simpl.
  induction blocks as [|b rest IH]; simpl; [reflexivity|].
  now rewrite IH, heading_words_spec.
Qed.

Lemma tokens_in_order_length (blocks : list Prismic.Block) :
  List.length (tokens_in_order asText blocks) = total_count asText blocks.
Proof.
  unfold tokens_in_order.
  induction blocks as [|b rest IH]; simpl; [reflexivity|].
  rewrite length_app, IH. f_equal.
  unfold block_tokens, block_count.
  rewrite length_app.
  now destruct (String.eqb (Prismic.heading b) "").
Qed.

(** What the page computes for a post that has its content. *)
Lemma readTime_estimate (p : Post) (d : PostData)
    (blocks : list Prismic.Block) :
  data p = Some d -> content d = Some blocks ->
  readTime asText (Some p) = inr (Num (estimate asText blocks)).
Proof.
  intros Hd Hc. unfold readTime, totalWords. now rewrite Hd, Hc.
Qed.

Lemma amended_tokens_eq (blocks : list Prismic.Block) :
  amended_tokens asText blocks = tokens_in_order asText blocks.
Proof.
  unfold amended_tokens, tokens_in_order, amended_block_tokens, block_tokens.
  induction blocks as [|b rest IH]; simpl; [reflexivity|].
  now rewrite IH, !words_at_spaces_split.
Qed.

Lemma amended_total_eq (blocks : list Prismic.Block) :
  amended_total asText blocks = total_count asText blocks.
Proof.
  unfold amended_total, amended_block_count.
  induction blocks as [|b rest IH]; simpl; [reflexivity|].
  rewrite IH. unfold block_count. now rewrite !split_space_length.
Qed.

(** C1, amended.  For a post whose content is a sequence of blocks, the
    array the page builds holds, block after block in order, the words of
    the heading when the heading is non-empty and then the words of the
    body rendered to plain text, a word ending at a space character and
    nowhere else; its length counts, per block, one more than the spaces
    of a non-empty heading plus one more than the spaces of the rendered
    body; and the reading time is the ceiling of that total over 200: the
    integer [k] with [200 (k - 1) < total <= 200 k]. *)
Theorem readTime_is_ceiling_of_total (p : Post) (d : PostData)
    (blocks : list Prismic.Block) :
  data p = Some d -> content d = Some blocks ->
  totalWords asText (Some p) = inr (Some (amended_tokens asText blocks)) /\
  List.length (amended_tokens asText blocks) = amended_total asText blocks /\
  exists k : Z,
    readTime asText (Some p) = inr (Num k) /\
    (200 * (k - 1) < Z.of_nat (amended_total asText blocks) <= 200 * k)%Z.
Proof.
  intros Hd Hc. split; [|split].
  - unfold totalWords.
    now rewrite Hd, Hc, words_of_tokens_in_order, amended_tokens_eq.
  - now rewrite amended_tokens_eq, amended_total_eq, tokens_in_order_length.
  - exists (estimate asText blocks). split.
    + now apply readTime_estimate with d.
    + unfold estimate.
      rewrite words_of_tokens_in_order, tokens_in_order_length,
        <- amended_total_eq.
      apply (Qceiling_bounds (Z.of_nat (amended_total asText blocks)) 200).
Qed.

(** C6.  A block whose body renders to the empty string still pushes one
    token, the empty string: the array grows by the heading's tokens and
    by exactly that one token. *)
Theorem empty_body_pushes_one_token (blocks : list Prismic.Block)
    (b : Prismic.Block) :
  asText (Prismic.body b) = "" ->
  wordsContent asText b = [""] /\
  words_of asText (blocks ++ [b])
    = words_of asText blocks ++ heading_words b ++ [""] /\
  List.length (words_of asText (blocks ++ [b]))
    = List.length (words_of asText blocks)
      + List.length (heading_words b) + 1.
Proof.
  intros Hb.
  assert (Hw : wordsContent asText b = [""])
    by (unfold wordsContent; now rewrite Hb).
  split; [exact Hw|]. rewrite words_of_snoc, Hw. split; [reflexivity|].
  rewrite !length_app. simpl. lia.
Qed.

(** C7.  The estimate is never negative, and appending a block lowers
    neither the word count nor the estimate. *)
Theorem estimate_nonneg_monotone (blocks : list Prismic.Block)
    (b : Prismic.Block) :
  (0 <= estimate asText blocks)%Z /\
  List.length (words_of asText blocks)
    <= List.length (words_of asText (blocks ++ [b])) /\
  (estimate asText blocks <= estimate asText (blocks ++ [b]))%Z.
Proof.
  assert (Hlen : List.length (words_of asText blocks)
                 <= List.length (words_of asText (blocks ++ [b])))
    by (rewrite words_of_snoc, length_app; lia).
  split; [|split].
  - apply Qceiling_frac_nonneg. lia.
  - exact Hlen.
  - apply Qceiling_frac_mono. lia.
Qed.

(** C9.  The reference values: no block gives 0; the block with
    heading "A B" and a body rendering to "C D E" gives 5 tokens and 1
    minute; blocks without heading whose bodies give 201 tokens in all
    give 2 minutes. *)
Theorem estimate_reference_values :
  estimate asText [] = 0%Z /\
  (forall spans : list Prismic.Span,
      asText spans = "C D E" ->
      let b := {| Prismic.heading := "A B"; Prismic.body := spans |} in
      List.length (words_of asText [b]) = 5 /\
      estimate asText [b] = 1%Z) /\
  (forall blocks : list Prismic.Block,
      Forall (fun b => Prismic.heading b = "") blocks ->
      list_sum (map (fun b => List.length (wordsContent asText b)) blocks)
        = 201 ->
      estimate asText blocks = 2%Z).
Proof.
  split; [reflexivity|]. split.
  - intros spans Hs b.
    assert (Hw : words_of asText [b] = ["A"; "B"; "C"; "D"; "E"]).
    { unfold words_of, b. simpl. unfold reducer, wordsContent. simpl.
      now rewrite Hs. }
    unfold estimate. rewrite Hw. split; reflexivity.
  - intros blocks Hh Hsum.
    assert (Htot : List.length (words_of asText blocks) = 201).
    { rewrite words_of_tokens_in_order, tokens_in_order_length, <- Hsum.
      clear Hsum.
      induction Hh as [|b rest Hb _ IH]; simpl; [reflexivity|].
      rewrite IH. unfold block_count, wordsContent.
      now rewrite Hb. }
    unfold estimate. now rewrite Htot.
Qed.

(** A post without blocks has reading time 0, which is falsy: the clock
    slot shows the placeholder, not "0 min". *)
Lemma empty_content_shows_placeholder (p : Post) (d : PostData) :
  data p = Some d -> content d = Some [] ->
  readTime asText (Some p) = inr (Num 0) /\
  clock_slot asText (Some p) = inr "Tempo de leitura".
Proof.
  intros Hd Hc.
  assert (Hr : readTime asText (Some p) = inr (Num 0))
    by (rewrite (readTime_estimate p d [] Hd Hc); reflexivity).
  split; [exact Hr|]. unfold clock_slot. now rewrite Hr.
Qed.

(** X6.  When does the reading time throw: exactly when [post.data] is there
    and its [content] is not. *)
Lemma readTime_throws_iff (p : option Post) :
  (exists e, readTime asText p = inl e)
  <-> (data_of p <> None /\ content_of p = None).
Proof.
  unfold readTime, totalWords, content_of, data_of.
  destruct p as [q|]; simpl.
  - destruct (data q) as [d|]; simpl.
    + destruct (content d); simpl; split.
      * intros [e He]; discriminate.
      * intros [_ Hc]; discriminate.
      * intros _. split; [discriminate|reflexivity].
      * intros _. eexists; reflexivity.
    + split; [intros [e He]; discriminate|intros [H _]; now elim H].
  - split; [intros [e He]; discriminate|intros [H _]; now elim H].
Qed.

(** C3, amended.  When the post, or the [data] of the post, is missing,
    the reading time does not throw: it is [NaN], and the clock slot
    shows the placeholder. *)
Theorem readTime_tolerates_missing_post (p : option Post) :
  data_of p = None ->
  readTime asText p = inr NaN /\
  clock_slot asText p = inr "Tempo de leitura".
Proof.
  intros Hd.
  assert (Hr : readTime asText p = inr NaN).
  { unfold readTime, totalWords. destruct p as [q|]; simpl in *.
    - now rewrite Hd.
    - reflexivity. }
  split; [exact Hr|]. unfold clock_slot. now rewrite Hr.
Qed.

End WithAsText.

Lemma readTime_is_ceiling_of_total_witness :
  totalWords asText_joined
    (Some (sample_post (Some (sample_data (Some [titled_block; blank_block])))))
  = inr (Some ["A"; "B"; "C"; "D"; "E"; "Fim"; ""]) /\
  List.length (amended_tokens asText_joined [titled_block; blank_block]) = 7 /\
  exists k : Z,
    readTime asText_joined
      (Some (sample_post (Some (sample_data (Some [titled_block; blank_block])))))
    = inr (Num k) /\
    (200 * (k - 1) < 7 <= 200 * k)%Z.
Proof.
  exact (readTime_is_ceiling_of_total asText_joined
           (sample_post (Some (sample_data (Some [titled_block; blank_block]))))
           (sample_data (Some [titled_block; blank_block]))
           [titled_block; blank_block] eq_refl eq_refl).
Defined.

(** C1 as stated fails: this heading has 200 words separated by tabs, so
    the whitespace-split total of the post is 201 and its ceiling over 200
    is 2, while the page, which cuts at spaces only, counts 2 tokens and
    computes a reading time of 1. *)
Lemma readTime_not_whitespace_total :
  spec_total asText_joined [tab_block] = 201 /\
  Qceiling (Z.of_nat (spec_total asText_joined [tab_block]) # 200) = 2%Z /\
  List.length (words_of asText_joined [tab_block]) = 2 /\
  readTime asText_joined (Some (sample_post (Some (sample_data (Some [tab_block])))))
  = inr (Num 1).
Proof. repeat split; vm_compute; reflexivity. Qed.

Lemma empty_body_pushes_one_token_witness :
  wordsContent asText_joined blank_block = [""] /\
  words_of asText_joined ([one_word] ++ [blank_block])
    = words_of asText_joined [one_word] ++ heading_words blank_block ++ [""] /\
  List.length (words_of asText_joined ([one_word] ++ [blank_block]))
    = List.length (words_of asText_joined [one_word])
      + List.length (heading_words blank_block) + 1.
Proof.
  exact (empty_body_pushes_one_token asText_joined [one_word] blank_block
           eq_refl).
Defined.

Lemma estimate_reference_values_witness :
  estimate asText_joined [] = 0%Z /\
  estimate asText_joined
    [ {| Prismic.heading := "A B";
         Prismic.body := [ {| Prismic.text := "C D E" |} ] |} ] = 1%Z /\
  estimate asText_joined (repeat one_word 201) = 2%Z.
Proof.
  destruct (estimate_reference_values asText_joined) as (H0 & H1 & H2).
  split; [exact H0|]. split.
  - exact (proj2 (H1 [ {| Prismic.text := "C D E" |} ] eq_refl)).
  - apply H2.
    + repeat constructor.
    + vm_compute. reflexivity.
Defined.

(** C3 as stated fails: the content of this post is missing, and the
    reading time throws a [TypeError] instead of giving no estimate. *)
Lemma readTime_throws_without_content :
  content_of (Some post_without_content) = None /\
  readTime asText_joined (Some post_without_content)
    = inl (TypeError "Cannot read property 'reduce' of undefined") /\
  clock_slot asText_joined (Some post_without_content)
    = inl (TypeError "Cannot read property 'reduce' of undefined").
Proof. repeat split. Qed.

Lemma readTime_tolerates_missing_post_witness :
  data_of (Some (sample_post None)) = None /\
  readTime asText_joined (Some (sample_post None)) = inr NaN /\
  clock_slot asText_joined (Some (sample_post None))
    = inr "Tempo de leitura".
Proof.
  split; [reflexivity|].
  exact (readTime_tolerates_missing_post asText_joined
           (Some (sample_post None)) eq_refl).
Defined.

End ReadingTimeFacts.

(** ** [getStaticProps] of the post page *)

Module StaticPropsFacts.
Import JS PostPage Samples.

Lemma strict_neq_false_iff (a b : option string) :
  strict_neq a b = false <-> a = b.
Proof.
  destruct a as [x|], b as [y|]; simpl; split; intros H;
    try discriminate; try reflexivity.
  - apply negb_false_iff, String.eqb_eq in H. now subst.
  - injection H as ->. apply negb_false_iff, String.eqb_refl.
Qed.

Lemma getStaticProps_found (prismic : Prismic.Client) (slug : string)
    (pv : bool) (ref : option string) (response : Prismic.Document) :
  Prismic.getByUID prismic "posts" slug ref = Some response ->
  getStaticProps prismic slug pv ref
  = inr ({| post := post_of response;
            preview := pv;
            pagination :=
              pagination_of
                (first_result
                   (Prismic.query prismic posts_type
                      (sibling_options (Prismic.id response) Prismic.ascending)))
                (first_result
                   (Prismic.query prismic posts_type
                      (sibling_options (Prismic.id response) Prismic.descending))) |},
         [sibling_options (Prismic.id response) Prismic.ascending;
          sibling_options (Prismic.id response) Prismic.descending]).
Proof. intros H. unfold getStaticProps. now rewrite H. Qed.

(** C10.  The post handed to the page has [last_publication_date] null
    when the document's equals its [first_publication_date], and the
    document's own value otherwise; so the 'edited at' marker only shows
    for a document whose two dates differ. *)
Theorem lastEdit_only_when_modified (prismic : Prismic.Client)
    (slug : string) (pv : bool) (ref : option string)
    (response : Prismic.Document) :
  Prismic.getByUID prismic "posts" slug ref = Some response ->
  exists props queries,
    getStaticProps prismic slug pv ref = inr (props, queries) /\
    (Prismic.last_publication_date response
       = Prismic.first_publication_date response ->
     last_publication_date (post props) = None) /\
    (Prismic.last_publication_date response
       <> Prismic.first_publication_date response ->
     last_publication_date (post props)
       = Prismic.last_publication_date response) /\
    (shows_lastEdit (Some (post props)) = true ->
     Prismic.last_publication_date response
       <> Prismic.first_publication_date response).
Proof.
  intros Hr. rewrite (getStaticProps_found _ _ pv _ _ Hr).
  eexists; eexists; split; [reflexivity|]. simpl.
  destruct (strict_neq (Prismic.first_publication_date response)
                       (Prismic.last_publication_date response)) eqn:E.
  - assert (Hne : Prismic.last_publication_date response
                  <> Prismic.first_publication_date response).
    { intros Heq. symmetry in Heq.
      apply strict_neq_false_iff in Heq. congruence. }
    repeat split; intros; [now elim Hne | exact Hne].
  - apply strict_neq_false_iff in E.
    repeat split; intros; [now elim H | discriminate].
Qed.

(** C4.  The page sends two queries, each of page size 1 and positioned
    after the current document: first the ascending one, whose first
    result is the next post, then the descending one, whose first result
    is the previous post.  A side is null exactly when its own query has
    no result; a side that is there has the title of the returned
    document and the link [/post/<uid>]; with no successor, [nextPage] is
    null while [prevPage] is still filled from the descending query. *)
Theorem pagination_from_two_queries (prismic : Prismic.Client)
    (slug : string) (pv : bool) (ref : option string)
    (response : Prismic.Document) :
  Prismic.getByUID prismic "posts" slug ref = Some response ->
  let q_next :=
    {| Prismic.pageSize := 1; Prismic.after := Some (Prismic.id response);
       Prismic.orderings := "[document.first_publication_date]" |} in
  let q_prev :=
    {| Prismic.pageSize := 1; Prismic.after := Some (Prismic.id response);
       Prismic.orderings := "[document.first_publication_date desc]" |} in
  let found_next := Prismic.results (Prismic.query prismic posts_type q_next) in
  let found_prev := Prismic.results (Prismic.query prismic posts_type q_prev) in
  let link_of (d : Prismic.Document) (l : option PageLink) :=
    exists lk, l = Some lk /\
      link_title lk = Prismic.title (Prismic.data d) /\
      forall u, Prismic.uid d = Some u -> href lk = ("/post/" ++ u)%string in
  exists props,
    getStaticProps prismic slug pv ref = inr (props, [q_next; q_prev]) /\
    (nextPage (pagination props) = None <-> found_next = []) /\
    (prevPage (pagination props) = None <-> found_prev = []) /\
    (forall d rest, found_next = d :: rest ->
                    link_of d (nextPage (pagination props))) /\
    (forall d rest, found_prev = d :: rest ->
                    link_of d (prevPage (pagination props))) /\
    (found_next = [] ->
     nextPage (pagination props) = None /\
     forall d rest, found_prev = d :: rest ->
                    link_of d (prevPage (pagination props))).
Proof.
  intros Hr q_next q_prev found_next found_prev link_of.
  rewrite (getStaticProps_found _ _ pv _ _ Hr).
  eexists; split; [reflexivity|]. simpl.
  fold Prismic.ascending Prismic.descending.
  change (sibling_options (Prismic.id response) Prismic.ascending) with q_next.
  change (sibling_options (Prismic.id response) Prismic.descending) with q_prev.
  unfold first_result. fold found_next found_prev.
  assert (Hlink : forall d, link_of d (Some (page_link d))).
  { intros d. exists (page_link d). split; [reflexivity|]. split.
    - reflexivity.
    - intros u Hu. simpl. now rewrite Hu. }
  destruct found_next as [|dn restn], found_prev as [|dp restp];
    repeat split; intros; try discriminate; try reflexivity;
    match goal with
    | H : _ :: _ = _ :: _ |- _ => injection H as <- <-; apply Hlink
    end.
Qed.

(** The [nextPage] side does not look at the descending query: two
    clients that agree on the document and on the ascending query give
    the same [nextPage]. *)
Lemma nextPage_ignores_descending (c1 c2 : Prismic.Client)
    (slug : string) (pv : bool) (ref : option string)
    (response : Prismic.Document) (p1 p2 : PostProps)
    (q1 q2 : list Prismic.QueryOptions) :
  Prismic.getByUID c1 "posts" slug ref = Some response ->
  Prismic.getByUID c2 "posts" slug ref = Some response ->
  Prismic.query c1 posts_type
    (sibling_options (Prismic.id response) Prismic.ascending)
  = Prismic.query c2 posts_type
      (sibling_options (Prismic.id response) Prismic.ascending) ->
  getStaticProps c1 slug pv ref = inr (p1, q1) ->
  getStaticProps c2 slug pv ref = inr (p2, q2) ->
  nextPage (pagination p1) = nextPage (pagination p2).
Proof.
  intros H1 H2 Hq G1 G2.
  rewrite (getStaticProps_found _ _ pv _ _ H1) in G1.
  rewrite (getStaticProps_found _ _ pv _ _ H2) in G2.
  injection G1 as <- _. injection G2 as <- _. simpl. now rewrite Hq.
Qed.

Lemma lastEdit_only_when_modified_witness :
  exists props queries,
    getStaticProps blog "como-utilizar-hooks" false None
      = inr (props, queries) /\
    last_publication_date (post props) = Some "2021-03-20T08:00:00+0000" /\
    shows_lastEdit (Some (post props)) = true.
Proof.
  destruct (lastEdit_only_when_modified blog "como-utilizar-hooks" false
              None doc_b eq_refl) as (props & queries & Hg & _ & Hne & _).
  exists props, queries. split; [exact Hg|].
  assert (Hl : last_publication_date (post props)
               = Some "2021-03-20T08:00:00+0000")
    by (apply Hne; discriminate).
  split; [exact Hl|]. simpl. now rewrite Hl.
Defined.

Lemma pagination_from_two_queries_witness :
  exists props queries,
    getStaticProps blog "criando-um-app-cra" false None
      = inr (props, queries) /\
    nextPage (pagination props) = None /\
    exists lk, prevPage (pagination props) = Some lk /\
               link_title lk = "Como utilizar Hooks" /\
               href lk = "/post/como-utilizar-hooks".
Proof.
  destruct (pagination_from_two_queries blog "criando-um-app-cra" false
              None doc_c eq_refl)
    as (props & Hg & _ & _ & _ & _ & Hlast).
  destruct (Hlast eq_refl) as (Hn & Hp).
  destruct (Hp doc_b [] eq_refl) as (lk & Hlk & Ht & Hh).
  exists props. eexists. split; [exact Hg|]. split; [exact Hn|].
  exists lk. split; [exact Hlk|]. split; [exact Ht|].
  exact (Hh "como-utilizar-hooks" eq_refl).
Defined.

End StaticPropsFacts.

(** ** The listing page: [handleNextPosts] and the button *)

Module HomePageFacts.
Import JS HomePage Samples.

Section WithFetch.

Variable fetch : string -> result PostsResponse.

(** The handler after a fetch that succeeded with well-formed posts. *)
Lemma handleNextPosts_ok (render st : HomeState) (r : PostsResponse)
    (new : list Post) :
  fetch (fetch_url (nextPage render)) = inr r ->
  addNewPosts_of r = inr new ->
  handleNextPosts fetch render st
  = ({| posts := posts render ++ new; nextPage := next_page r |}, inr tt).
Proof.
  intros Hf Hn.
  unfold handleNextPosts, handleNextPosts_resume, bind, await.
  now rewrite Hf, Hn.
Qed.

(** The handler after a fetch that failed. *)
Lemma handleNextPosts_rejected (render st : HomeState) (e : exn) :
  fetch (fetch_url (nextPage render)) = inl e ->
  handleNextPosts fetch render st = (st, inl e).
Proof.
  intros Hf.
  unfold handleNextPosts, handleNextPosts_resume, bind, await.
  now rewrite Hf.
Qed.

(** X10.  Whatever the handler throws (a rejected fetch, an answer without
    [results], a post without [data]), it throws before the first
    [setPosts]: the cells are left as they were, also when it resumes on
    cells other than those of its render. *)
Lemma handleNextPosts_throw_keeps_cells (render st st' : HomeState)
    (e : exn) :
  handleNextPosts fetch render st = (st', inl e) -> st' = st.
Proof.
  unfold handleNextPosts, handleNextPosts_resume, bind, await.
  destruct (fetch (fetch_url (nextPage render))) as [e1|r].
  - now intros [= <- _].
  - destruct (addNewPosts_of r) as [e2|new].
    + now intros [= <- _].
    + simpl. discriminate.
Qed.

(** C2.  When the fetch of a [loadMore] fails with a [FetchError], the
    call ends with that error and the stored posts (and the cursor) are
    what they were before the call. *)
Theorem fetch_error_keeps_posts (st : HomeState) (msg : string) :
  fetch (fetch_url (nextPage st)) = inl (FetchError msg) ->
  loadMore fetch st = (st, inl (FetchError msg)) /\
  posts (fst (loadMore fetch st)) = posts st.
Proof.
  intros Hf. unfold loadMore.
  rewrite (handleNextPosts_rejected st st _ Hf). now split.
Qed.



(** With nothing in flight, a page without button cannot move. *)
Lemma no_button_no_step (pg : Page) (a : action) (pg' : Page) :
  loadMore_button (cells pg) = false -> in_flight pg = [] ->
  ~ Home_step fetch pg a pg'.
Proof.
  intros Hb Hi Hs. inversion Hs; subst.
  - congruence.
  - rewrite Hi in H. now destruct before.
Qed.

(** C8, amended.  On a page whose cursor is null the button is not
    rendered, so no click can start [handleNextPosts] there; and when no
    earlier request is still in flight such a page stays as it is for
    ever: no further call is issued. *)
Theorem no_loadMore_without_cursor (pg : Page) :
  nextPage (cells pg) = None ->
  loadMore_button (cells pg) = false /\
  (forall pg', ~ Home_step fetch pg Click pg') /\
  (in_flight pg = [] ->
   forall acts pg', Home_run fetch pg acts pg' -> acts = [] /\ pg' = pg).
Proof.
  intros Hn.
  assert (Hb : loadMore_button (cells pg) = false)
    by (unfold loadMore_button; now rewrite Hn).
  split; [exact Hb|]. split.
  - intros pg' Hs. inversion Hs; subst. congruence.
  - intros Hi acts pg' Hrun. destruct Hrun as [|pg0 pg1 pg2 a rest Hs _].
    + now split.
    + now destruct (no_button_no_step pg0 a pg1 Hb Hi).
Qed.

(** A click and the settling of its request, with nothing else in
    flight, is one [loadMore]. *)
Lemma click_settle_is_loadMore (st : HomeState) :
  loadMore_button st = true ->
  Home_run fetch {| cells := st; in_flight := [] |} [Click; Settle]
    {| cells := fst (loadMore fetch st); in_flight := [] |}.
Proof.
  intros Hb.
  apply run_step with (pg' := {| cells := st; in_flight := [st] |}).
  - exact (step_click fetch {| cells := st; in_flight := [] |} Hb).
  - eapply run_step; [|apply run_done].
    exact (step_settle fetch {| cells := st; in_flight := [st] |}
             [] [] st eq_refl).
Qed.

End WithFetch.

(** C8 as stated fails: after two clicks on the same render, the first
    request settles, a third click fetches the last page and the cursor
    becomes null; then the stale second request settles, writes its old
    cursor back, the button is there again and a further click starts
    [handleNextPosts] once more. *)
Lemma stale_settle_restores_cursor :
  exists pg pg' pg'',
    Home_run two_pages {| cells := listing_at [] (Some "c1"); in_flight := [] |}
      [Click; Click; Settle; Click; Settle] pg /\
    nextPage (cells pg) = None /\
    Home_step two_pages pg Settle pg' /\
    loadMore_button (cells pg') = true /\
    Home_step two_pages pg' Click pg''.
Proof.
  set (s0 := listing_at [] (Some "c1")).
  set (s1 := listing_at [summary "p1" "Um"; summary "p2" "Dois"] (Some "c2")).
  set (s2 := listing_at [summary "p1" "Um"; summary "p2" "Dois";
                         summary "p3" "Tres"] None).
  exists {| cells := s2; in_flight := [s0] |},
         {| cells := s1; in_flight := [] |},
         {| cells := s1; in_flight := [s1] |}.
  split; [|split; [reflexivity|split; [|split; [reflexivity|]]]].
  - apply run_step with (pg' := {| cells := s0; in_flight := [s0] |});
      [exact (step_click two_pages {| cells := s0; in_flight := [] |} eq_refl)|].
    apply run_step with (pg' := {| cells := s0; in_flight := [s0; s0] |});
      [exact (step_click two_pages {| cells := s0; in_flight := [s0] |} eq_refl)|].
    apply run_step with (pg' := {| cells := s1; in_flight := [s0] |});
      [exact (step_settle two_pages {| cells := s0; in_flight := [s0; s0] |}
                [] [s0] s0 eq_refl)|].
    apply run_step with (pg' := {| cells := s1; in_flight := [s0; s1] |});
      [exact (step_click two_pages {| cells := s1; in_flight := [s0] |} eq_refl)|].
    apply run_step with (pg' := {| cells := s2; in_flight := [s0] |});
      [exact (step_settle two_pages {| cells := s1; in_flight := [s0; s1] |}
                [s0] [] s1 eq_refl)|].
    apply run_done.
  - exact (step_settle two_pages {| cells := s2; in_flight := [s0] |}
             [] [] s0 eq_refl).
  - exact (step_click two_pages {| cells := s1; in_flight := [] |} eq_refl).
Qed.

Lemma fetch_error_keeps_posts_witness :
  loadMore two_pages (listing_at [summary "p0" "Zero"] (Some "c9"))
    = (listing_at [summary "p0" "Zero"] (Some "c9"),
       inl (FetchError "Failed to fetch")) /\
  posts (fst (loadMore two_pages (listing_at [summary "p0" "Zero"] (Some "c9"))))
    = [summary "p0" "Zero"].
Proof.
  exact (fetch_error_keeps_posts two_pages
           (listing_at [summary "p0" "Zero"] (Some "c9"))
           "Failed to fetch" eq_refl).
Defined.


Lemma no_loadMore_without_cursor_witness :
  loadMore_button (listing_at [summary "p1" "Um"] None) = false /\
  forall pg',
    ~ Home_step two_pages
        {| cells := listing_at [summary "p1" "Um"] None; in_flight := [] |}
        Click pg'.
Proof.
  destruct (no_loadMore_without_cursor two_pages
              {| cells := listing_at [summary "p1" "Um"] None;
                 in_flight := [] |} eq_refl) as (Hb & Hc & _).
  split; [exact Hb | exact Hc].
Defined.

End HomePageFacts.

(** ** More on the word count and the clock slot *)

Module WordCountFacts.
Import JS PostPage SplitFacts Samples.

Section WithAsText.

Variable asText : list Prismic.Span -> string.

(** The number of tokens one block pushes, counted in spaces. *)
Lemma block_count_spaces (b : Prismic.Block) :
  block_count asText b
  = (if String.eqb (Prismic.heading b) "" then 0
     else S (count_spaces (Prismic.heading b)))
    + S (count_spaces (asText (Prismic.body b))).
Proof.
  unfold block_count. rewrite !split_space_length. reflexivity.
Qed.

Lemma words_of_length (blocks : list Prismic.Block) :
  List.length (words_of asText blocks) = total_count asText blocks.
Proof.
  rewrite ReadingTimeFacts.words_of_tokens_in_order.
  apply ReadingTimeFacts.tokens_in_order_length.
Qed.

Lemma total_count_app (xs ys : list Prismic.Block) :
  total_count asText (xs ++ ys) = total_count asText xs + total_count asText ys.
Proof.
  induction xs as [|b rest IH]; simpl; [reflexivity|]. rewrite IH. lia.
Qed.

Lemma block_count_pos (b : Prismic.Block) : 1 <= block_count asText b.
Proof. rewrite block_count_spaces. lia. Qed.

Lemma total_count_ge_blocks (blocks : list Prismic.Block) :
  List.length blocks <= total_count asText blocks.
Proof.
  induction blocks as [|b rest IH]; simpl; [lia|].
  pose proof (block_count_pos b). lia.
Qed.

(** X1.  The word count is a count of spaces: a block with a non-empty heading
    counts the heading's spaces plus one, every block counts the spaces of
    its rendered body plus one. *)
Theorem word_count_counts_spaces (blocks : list Prismic.Block) :
  List.length (words_of asText blocks)
  = list_sum
      (map (fun b =>
              (if String.eqb (Prismic.heading b) "" then 0
               else S (count_spaces (Prismic.heading b)))
              + S (count_spaces (asText (Prismic.body b))))
           blocks).
Proof.
  rewrite words_of_length.
  induction blocks as [|b rest IH]; simpl; [reflexivity|].
  now rewrite IH, block_count_spaces.
Qed.

(** X2.  The order of the blocks changes neither the word count nor the
    reading time. *)
Theorem estimate_ignores_block_order (xs ys : list Prismic.Block) :
  Permutation xs ys ->
  List.length (words_of asText xs) = List.length (words_of asText ys) /\
  estimate asText xs = estimate asText ys.
Proof.
  intros Hp.
  assert (Hl : List.length (words_of asText xs)
               = List.length (words_of asText ys)).
  { rewrite !words_of_length.
    induction Hp; simpl; lia. }
  split; [exact Hl|]. unfold estimate. now rewrite Hl.
Qed.

(** X3.  The words of two runs of blocks put together are the words of the
    first followed by the words of the second; the reading time of the
    whole is at least that of each part and at most their sum. *)
Theorem estimate_of_concatenation (xs ys : list Prismic.Block) :
  words_of asText (xs ++ ys) = words_of asText xs ++ words_of asText ys /\
  (Z.max (estimate asText xs) (estimate asText ys)
   <= estimate asText (xs ++ ys)
   <= estimate asText xs + estimate asText ys)%Z.
Proof.
  assert (Hw : words_of asText (xs ++ ys)
               = words_of asText xs ++ words_of asText ys).
  { unfold words_of. rewrite !ReadingTimeFacts.fold_reducer. simpl.
    now rewrite flat_map_app. }
  split; [exact Hw|].
  unfold estimate. rewrite Hw, length_app.
  set (a := List.length (words_of asText xs)).
  set (b := List.length (words_of asText ys)).
  pose proof (Qceiling_bounds (Z.of_nat a) 200) as Ha.
  pose proof (Qceiling_bounds (Z.of_nat b) 200) as Hb.
  pose proof (Qceiling_bounds (Z.of_nat (a + b)) 200) as Hab.
  lia.
Qed.

Lemma estimate_pos (blocks : list Prismic.Block) :
  blocks <> [] -> (1 <= estimate asText blocks)%Z.
Proof.
  intros Hne.
  pose proof (total_count_ge_blocks blocks) as Hge.
  pose proof (Qceiling_bounds (Z.of_nat (total_count asText blocks)) 200) as Hb.
  assert (He : estimate asText blocks
               = Qceiling (Z.of_nat (total_count asText blocks) # 200))
    by (unfold estimate; now rewrite words_of_length).
  rewrite <- He in Hb. clear He.
  destruct blocks as [|b rest]; [congruence|].
  change (List.length (b :: rest)) with (S (List.length rest)) in Hge. lia.
Qed.

(** X4.  Every block pushes at least one token: the reading time is 0 for no
    block at all, and at least one minute otherwise. *)
Theorem estimate_zero_iff_no_block (blocks : list Prismic.Block) :
  (estimate asText blocks = 0%Z <-> blocks = []) /\
  (blocks <> [] -> (1 <= estimate asText blocks)%Z).
Proof.
  split; [split|].
  - intros H0. destruct blocks as [|b rest]; [reflexivity|].
    assert ((1 <= estimate asText (b :: rest))%Z)
      by (apply estimate_pos; discriminate).
    lia.
  - intros ->. reflexivity.
  - apply estimate_pos.
Qed.

Lemma minutes_not_placeholder (z : Z) :
  (string_of_Z z ++ " min")%string <> "Tempo de leitura".
Proof.
  unfold string_of_Z, NilZero.string_of_int.
  destruct (Z.to_int z) as [d|d]; destruct d; simpl; discriminate.
Qed.

Lemma placeholder_cases (p : option Post) :
  clock_slot asText p = inr "Tempo de leitura"
  <-> (data_of p = None \/ content_of p = Some []).
Proof.
  unfold clock_slot, readTime, totalWords, content_of, data_of.
  destruct p as [q|]; simpl; [|split; [now left|reflexivity]].
  destruct (data q) as [d|]; simpl; [|split; [now left|reflexivity]].
  destruct (content d) as [blocks|]; simpl.
  - fold (estimate asText blocks).
    pose proof (estimate_pos blocks) as Hpos.
    split.
    + intros Hc. right. f_equal.
      destruct blocks as [|b rest]; [reflexivity|].
      assert (Hne : (1 <= estimate asText (b :: rest))%Z)
        by (apply Hpos; discriminate).
      unfold render_clock in Hc. simpl in Hc.
      destruct (Z.eqb_spec (estimate asText (b :: rest)) 0) as [E|E];
        [lia|]. simpl in Hc.
      injection Hc as Hc. now apply minutes_not_placeholder in Hc.
    + intros [Hd|Hc]; [discriminate|].
      injection Hc as ->. reflexivity.
  - split; [discriminate|]. intros [H|H]; discriminate.
Qed.

(** X5.  The clock slot shows the placeholder exactly when the post or its
    [data] is missing, or the content has no block; with at least one
    block it shows the minutes: the decimal text of the reading time,
    which is then at least 1, followed by " min". *)
Theorem clock_placeholder_iff (p : option Post) :
  (clock_slot asText p = inr "Tempo de leitura"
   <-> (data_of p = None \/ content_of p = Some [])) /\
  (forall blocks,
      content_of p = Some blocks -> blocks <> [] ->
      (1 <= estimate asText blocks)%Z /\
      clock_slot asText p
      = inr (string_of_Z (estimate asText blocks) ++ " min")%string).
Proof.
  split; [apply placeholder_cases|].
  intros blocks Hc Hne.
  pose proof (estimate_pos blocks Hne) as Hpos. split; [exact Hpos|].
  unfold content_of, data_of in Hc.
  destruct p as [q|]; [|discriminate].
  destruct (data q) as [d|] eqn:Ed; [|discriminate].
  unfold clock_slot.
  rewrite (ReadingTimeFacts.readTime_estimate asText q d blocks Ed Hc).
  unfold render_clock. simpl.
  destruct (Z.eqb_spec (estimate asText blocks) 0) as [E|E]; [lia|].
  reflexivity.
Qed.

(** X7.  A found document with content gives a page whose reading time is the
    estimate of that content; a found document without content gives a
    page whose reading time throws. *)
Theorem static_props_reading_time (prismic : Prismic.Client) (slug : string)
    (pv : bool) (ref : option string) (response : Prismic.Document) :
  Prismic.getByUID prismic "posts" slug ref = Some response ->
  exists props queries,
    getStaticProps prismic slug pv ref = inr (props, queries) /\
    (forall blocks,
        Prismic.content (Prismic.data response) = Some blocks ->
        readTime asText (Some (post props))
        = inr (Num (estimate asText blocks))) /\
    (Prismic.content (Prismic.data response) = None ->
     exists msg, readTime asText (Some (post props)) = inl (TypeError msg)).
Proof.
  intros Hr. rewrite (StaticPropsFacts.getStaticProps_found _ _ pv _ _ Hr).
  eexists; eexists; split; [reflexivity|]. simpl. split.
  - intros blocks Hc. unfold readTime, totalWords. simpl. now rewrite Hc.
  - intros Hc. unfold readTime, totalWords. simpl. rewrite Hc.
    eexists; reflexivity.
Qed.

(** The earlier revision pushes the same tokens: its [!!content.heading]
    test is the later revision's truthiness test. *)
Lemma earlier_reducer_same (total : list string) (b : Prismic.Block) :
  PostPageEarlier.reducer asText total b = reducer asText total b.
Proof.
  unfold PostPageEarlier.reducer, reducer, wordsContent.
  now rewrite negb_involutive.
Qed.

Lemma earlier_fold_same (blocks : list Prismic.Block) (acc : list string) :
  fold_left (PostPageEarlier.reducer asText) blocks acc
  = fold_left (reducer asText) blocks acc.
Proof.
  revert acc. induction blocks as [|b rest IH]; intros acc; simpl;
    [reflexivity|].
  now rewrite earlier_reducer_same, IH.
Qed.

(** X9.  Both revisions of the page agree on what they show: whenever the
    later [getStaticProps], called without preview reference, returns
    props, the earlier one returns a post with the same [uid], first date
    and [data], and the two pages compute the same reading time. *)
Theorem revisions_agree (prismic : Prismic.Client) (slug : string)
    (pv : bool) (props : PostProps) (queries : list Prismic.QueryOptions) :
  getStaticProps prismic slug pv None = inr (props, queries) ->
  exists p0,
    PostPageEarlier.getStaticProps prismic slug = inr p0 /\
    PostPageEarlier.uid p0 = uid (post props) /\
    PostPageEarlier.first_publication_date p0
      = first_publication_date (post props) /\
    PostPageEarlier.data p0 = data (post props) /\
    PostPageEarlier.readTime asText (Some p0)
      = readTime asText (Some (post props)).
Proof.
  unfold PostPageEarlier.getStaticProps, getStaticProps.
  destruct (Prismic.getByUID prismic "posts" slug None) as [response|];
    [|discriminate].
  intros [= <- _]. eexists. split; [reflexivity|]. simpl.
  repeat split.
  unfold PostPageEarlier.readTime, readTime,
    PostPageEarlier.totalWords, totalWords. simpl.
  destruct (Prismic.content (Prismic.data response)) as [blocks|];
    [|reflexivity].
  unfold words_of. now rewrite earlier_fold_same.
Qed.

End WithAsText.

(** X8.  The 'edited at' marker of the page built by [getStaticProps] shows
    exactly when the document's last date is a non-empty string that
    differs from its first date. *)
Theorem lastEdit_shown_iff (prismic : Prismic.Client) (slug : string)
    (pv : bool) (ref : option string) (response : Prismic.Document) :
  Prismic.getByUID prismic "posts" slug ref = Some response ->
  exists props queries,
    getStaticProps prismic slug pv ref = inr (props, queries) /\
    (shows_lastEdit (Some (post props)) = true
     <-> (truthy_opt_string (Prismic.last_publication_date response) = true /\
          Prismic.last_publication_date response
            <> Prismic.first_publication_date response)).
Proof.
  intros Hr. rewrite (StaticPropsFacts.getStaticProps_found _ _ pv _ _ Hr).
  eexists; eexists; split; [reflexivity|]. simpl.
  destruct (strict_neq (Prismic.first_publication_date response)
                       (Prismic.last_publication_date response)) eqn:E.
  - assert (Hne : Prismic.last_publication_date response
                  <> Prismic.first_publication_date response).
    { intros Heq. symmetry in Heq.
      apply StaticPropsFacts.strict_neq_false_iff in Heq. congruence. }
    split; [intros H; now split | now intros [H _]].
  - apply StaticPropsFacts.strict_neq_false_iff in E. simpl.
    split; [discriminate|]. intros [_ Hne]. now elim Hne.
Qed.

Lemma estimate_ignores_block_order_witness :
  estimate asText_joined [one_word; titled_block]
  = estimate asText_joined [titled_block; one_word].
Proof.
  exact (proj2 (estimate_ignores_block_order asText_joined
                  [one_word; titled_block] [titled_block; one_word]
                  (perm_swap titled_block one_word []))).
Defined.

Lemma clock_placeholder_iff_witness :
  clock_slot asText_joined
    (Some (sample_post (Some (sample_data (Some [titled_block])))))
  = inr "1 min".
Proof.
  destruct (clock_placeholder_iff asText_joined
              (Some (sample_post (Some (sample_data (Some [titled_block]))))))
    as [_ Hmin].
  destruct (Hmin [titled_block] eq_refl) as [_ Hc]; [discriminate|].
  exact Hc.
Defined.

Lemma revisions_agree_witness :
  exists p0,
    PostPageEarlier.getStaticProps blog "como-utilizar-hooks" = inr p0 /\
    PostPageEarlier.readTime asText_joined (Some p0) = inr (Num 1).
Proof.
  destruct (revisions_agree asText_joined blog "como-utilizar-hooks" false
              _ _ eq_refl) as (p0 & Hg & _ & _ & _ & Hr).
  exists p0. split; [exact Hg|]. exact Hr.
Defined.

Lemma static_props_reading_time_witness :
  exists props queries,
    getStaticProps blog "como-utilizar-hooks" false None
      = inr (props, queries) /\
    readTime asText_joined (Some (post props)) = inr (Num 1).
Proof.
  destruct (static_props_reading_time asText_joined blog
              "como-utilizar-hooks" false None doc_b eq_refl)
    as (props & queries & Hg & Hc & _).
  exists props, queries. split; [exact Hg|].
  exact (Hc [one_word] eq_refl).
Defined.

Lemma lastEdit_shown_iff_witness :
  exists props queries,
    getStaticProps blog "mapas-com-react" false None = inr (props, queries) /\
    shows_lastEdit (Some (post props)) <> true.
Proof.
  destruct (lastEdit_shown_iff blog "mapas-com-react" false None doc_a eq_refl)
    as (props & queries & Hg & Hiff).
  exists props, queries. split; [exact Hg|].
  intros Hs. apply Hiff in Hs. destruct Hs as [_ Hne]. now apply Hne.
Defined.

End WordCountFacts.

(** ** More on the listing page: failures, repeated loading, overlapping
    requests *)

Module HomeFlowFacts.
Import JS HomePage HomeServer Samples.

Section WithFetch.

Variable fetch : string -> result PostsResponse.

(** What [array_map copy_post] does: it succeeds exactly on posts that all
    have their [data], and fails with the [TypeError] of the first read of
    [post.data.title] otherwise. *)
Lemma array_map_copy_ok (raws : list RawPost) :
  Forall (fun p => raw_data p <> None) raws ->
  exists new, array_map copy_post raws = inr new.
Proof.
  induction 1 as [|p rest Hp _ [new IH]]; simpl; [now eexists|].
  unfold copy_post at 1. destruct (raw_data p) as [d|]; [|now elim Hp].
  rewrite IH. now eexists.
Qed.

Lemma array_map_copy_broken (raws : list RawPost) :
  Exists (fun p => raw_data p = None) raws ->
  array_map copy_post raws
  = inl (TypeError "Cannot read property 'title' of undefined").
Proof.
  induction 1 as [p rest Hp|p rest _ IH]; simpl.
  - unfold copy_post. now rewrite Hp.
  - unfold copy_post at 1. destruct (raw_data p); [|reflexivity].
    now rewrite IH.
Qed.

Lemma array_map_copy_inr (raws : list RawPost) (new : list Post) :
  array_map copy_post raws = inr new ->
  Forall (fun p => raw_data p <> None) raws.
Proof.
  revert new. induction raws as [|p rest IH]; intros new; simpl;
    [constructor|].
  unfold copy_post at 1. destruct (raw_data p) as [d|] eqn:Ed; [|discriminate].
  destruct (array_map copy_post rest) as [e|bs]; [discriminate|].
  intros _. constructor; [congruence|]. now apply IH with bs.
Qed.

(** How the handler of a render ends, whatever the cells are when it
    resumes: it throws and leaves them, or it writes the posts its render
    saw followed by the fetched ones, and the fetched cursor. *)
Lemma handler_outcome (render : HomeState) :
  (exists e, forall x, handleNextPosts fetch render x = (x, inl e)) \/
  (exists r new,
      fetch (fetch_url (nextPage render)) = inr r /\
      addNewPosts_of r = inr new /\
      forall x, handleNextPosts fetch render x
                = ({| posts := posts render ++ new; nextPage := next_page r |},
                   inr tt)).
Proof.
  unfold handleNextPosts, handleNextPosts_resume, bind, await.
  destruct (fetch (fetch_url (nextPage render))) as [e|r].
  - left. now exists e.
  - destruct (addNewPosts_of r) as [e|new] eqn:En.
    + left. now exists e.
    + right. exists r, new. now repeat split.
Qed.

(** X11.  A [loadMore] succeeds exactly when the fetch succeeds, the answer has
    its [results], and every post in them has its [data]. *)
Theorem loadMore_succeeds_iff (st : HomeState) :
  (exists st', loadMore fetch st = (st', inr tt))
  <-> (exists r raws,
          fetch (fetch_url (nextPage st)) = inr r /\
          results r = Some raws /\
          Forall (fun p => raw_data p <> None) raws).
Proof.
  unfold loadMore. split.
  - intros [st' Hl].
    destruct (handler_outcome st) as [[e He]|(r & new & Hf & Hn & Hx)].
    + rewrite He in Hl. discriminate.
    + unfold addNewPosts_of in Hn.
      destruct (results r) as [raws|] eqn:Er; [|discriminate].
      exists r, raws. split; [exact Hf|]. split; [exact Er|].
      now apply array_map_copy_inr with new.
  - intros (r & raws & Hf & Hr & Hall).
    destruct (array_map_copy_ok raws Hall) as [new Hn].
    eexists. apply HomePageFacts.handleNextPosts_ok with (r := r);
      [exact Hf|].
    unfold addNewPosts_of. rewrite Hr. exact Hn.
Qed.

(** X12.  One fetched post without [data] makes the whole call throw: none of
    the posts of that page is stored and the cursor does not move. *)
Theorem malformed_post_rejects_page (st : HomeState) (r : PostsResponse)
    (raws : list RawPost) :
  fetch (fetch_url (nextPage st)) = inr r ->
  results r = Some raws ->
  Exists (fun p => raw_data p = None) raws ->
  loadMore fetch st
  = (st, inl (TypeError "Cannot read property 'title' of undefined")).
Proof.
  intros Hf Hr Hex.
  unfold loadMore, handleNextPosts, handleNextPosts_resume, bind, await.
  rewrite Hf. unfold addNewPosts_of. rewrite Hr.
  now rewrite (array_map_copy_broken raws Hex).
Qed.

Lemma loadMore_times_follow (pages : list PostsResponse)
    (news : list (list Post)) :
  Forall2 (fun r new => addNewPosts_of r = inr new) pages news ->
  forall st,
    pages_follow fetch (nextPage st) pages ->
    loadMore_times fetch (List.length pages) st
    = {| posts := posts st ++ List.concat news;
         nextPage := last_cursor (nextPage st) pages |}.
Proof.
  induction 1 as [|r new pages news Hn _ IH]; intros st Hfol; simpl.
  - rewrite app_nil_r. now destruct st.
  - destruct Hfol as [Hf Hrest].
    unfold loadMore.
    rewrite (HomePageFacts.handleNextPosts_ok fetch st st r new Hf Hn). simpl.
    rewrite IH by exact Hrest. simpl. now rewrite <- app_assoc.
Qed.

(** X13.  From the server-rendered first page, [n] loads along the cursors the
    backend hands out leave the first page followed by the fetched pages,
    each in its order, and the last cursor handed out. *)
Theorem listing_after_loads
    (query : list string -> list Prismic.Predicate -> Prismic.QueryOptions
             -> Prismic.QueryResponse)
    (pages : list PostsResponse) (news : list (list Post)) :
  let first := query ["posts.title"; "posts.subtitle"; "posts.author"]
                     [Prismic.at_ "document.type" "posts"]
                     {| Prismic.pageSize := 3; Prismic.after := None;
                        Prismic.orderings :=
                          "[document.first_publication_date desc]" |} in
  pages_follow fetch (Prismic.next_page first) pages ->
  Forall2 (fun r new => addNewPosts_of r = inr new) pages news ->
  loadMore_times fetch (List.length pages)
    (Home_init (HomeServer.getStaticProps query))
  = {| posts := map summary_of (Prismic.results first) ++ List.concat news;
       nextPage := last_cursor (Prismic.next_page first) pages |}.
Proof.
  intros first Hfol Hall.
  now rewrite (loadMore_times_follow pages news Hall
                 (Home_init (HomeServer.getStaticProps query)) Hfol).
Qed.

(** A property kept by every step is kept along a run. *)
Lemma run_invariant (I : Page -> Prop) :
  (forall pg a pg', I pg -> Home_step fetch pg a pg' -> I pg') ->
  forall pg acts pg', Home_run fetch pg acts pg' -> I pg -> I pg'.
Proof.
  intros Hstep pg acts pg' Hrun.
  induction Hrun as [|pg pg1 pg2 a rest Hs _ IH]; intros HI; [exact HI|].
  apply IH. now apply Hstep with pg a.
Qed.

Lemma Forall_remove_middle {A} (P : A -> Prop) (xs ys : list A) (y : A) :
  Forall P (xs ++ y :: ys) -> P y /\ Forall P (xs ++ ys).
Proof.
  intros H. apply Forall_app in H as [Hx Hy].
  inversion Hy; subst. split; [assumption|]. apply Forall_app. now split.
Qed.

(** X14.  Whatever the clicks and however the requests overlap, the posts the
    page started with stay at the head of the list. *)
Theorem first_page_is_kept (st : HomeState) (acts : list action) (pg : Page) :
  Home_run fetch {| cells := st; in_flight := [] |} acts pg ->
  exists more, posts (cells pg) = posts st ++ more.
Proof.
  intros Hrun.
  set (ext := fun s : HomeState => exists more, posts s = posts st ++ more).
  enough (HI : ext (cells pg) /\ Forall ext (in_flight pg)) by apply HI.
  apply (run_invariant (fun p => ext (cells p) /\ Forall ext (in_flight p)))
    with (2 := Hrun).
  - intros p a p' [Hc Hf] Hs. inversion Hs; subst; simpl.
    + split; [exact Hc|]. apply Forall_app. split; [exact Hf|].
      now constructor.
    + rewrite H in Hf. apply Forall_remove_middle in Hf as [Hr Hrest].
      split; [|exact Hrest].
      destruct (handler_outcome render) as [[e He]|(r & new & _ & _ & Hx)].
      * now rewrite He.
      * rewrite Hx. simpl. destruct Hr as [more Hm].
        exists (more ++ new). rewrite Hm. now rewrite <- app_assoc.
  - simpl. split; [|constructor]. exists []. now rewrite app_nil_r.
Qed.

(** X15.  Every request in flight was started by a render with a cursor: the
    address fetched is that cursor, a non-empty string, and never the
    text of a null cursor. *)
Theorem requests_carry_cursor (st : HomeState) (acts : list action) (pg : Page) :
  Home_run fetch {| cells := st; in_flight := [] |} acts pg ->
  Forall (fun render =>
            exists c, nextPage render = Some c /\ c <> "" /\
                      fetch_url (nextPage render) = c)
         (in_flight pg).
Proof.
  intros Hrun.
  set (has := fun render : HomeState =>
                exists c, nextPage render = Some c /\ c <> "" /\
                          fetch_url (nextPage render) = c).
  apply (run_invariant (fun p => Forall has (in_flight p))) with (2 := Hrun).
  - intros p a p' Hf Hs. inversion Hs; subst; simpl.
    + apply Forall_app. split; [exact Hf|]. constructor; [|constructor].
      unfold loadMore_button in H. unfold has.
      destruct (nextPage (cells p)) as [c|] eqn:Ec; [|discriminate].
      exists c. split; [reflexivity|]. split; [|reflexivity].
      intros ->. discriminate.
    + rewrite H in Hf. now apply Forall_remove_middle in Hf.
  - constructor.
Qed.

Lemma pick_of_one {A} (x y : A) (before after : list A) :
  [x] = before ++ y :: after -> y = x /\ before ++ after = [].
Proof.
  destruct before as [|b before]; simpl; intros H.
  - injection H as -> <-. now split.
  - injection H as _ H. destruct before; discriminate.
Qed.

Lemma pick_of_two {A} (x y : A) (before after : list A) :
  [x; x] = before ++ y :: after -> y = x /\ before ++ after = [x].
Proof.
  destruct before as [|b before]; simpl; intros H.
  - injection H as -> <-. now split.
  - injection H as -> H. apply pick_of_one in H as [-> ->]. now split.
Qed.

(** X16.  Two clicks before the first request settles do not store the page
    twice: once both requests have settled, in either order, the cells are
    those of a single [loadMore]. *)
Theorem double_click_same_as_one (st : HomeState) (pg : Page) :
  Home_run fetch {| cells := st; in_flight := [] |}
    [Click; Click; Settle; Settle] pg ->
  pg = {| cells := fst (loadMore fetch st); in_flight := [] |}.
Proof.
  intros Hrun.
  inversion Hrun as [|p0 p1 p5 a0 r0 Hs1 Hr1]; subst; clear Hrun.
  inversion Hs1; subst; clear Hs1. simpl in Hr1.
  inversion Hr1 as [|p1' p2 p5' a1 r1 Hs2 Hr2]; subst; clear Hr1.
  inversion Hs2; subst; clear Hs2. simpl in Hr2.
  inversion Hr2 as [|p2' p3 p5' a2 r2 Hs3 Hr3]; subst; clear Hr2.
  inversion Hs3 as [|p before after render Hin]; subst; clear Hs3.
  simpl in Hin, Hr3.
  apply pick_of_two in Hin as Hone.
  destruct Hone as [-> Hba]. rewrite Hba in Hr3. clear Hin Hba before after.
  inversion Hr3 as [|p3' p4 p5' a3 r3 Hs4 Hr4]; subst; clear Hr3.
  inversion Hs4 as [|p before after render Hin]; subst; clear Hs4.
  simpl in Hin, Hr4.
  apply pick_of_one in Hin as Hone.
  destruct Hone as [-> Hba]. rewrite Hba in Hr4. clear Hin Hba before after.
  inversion Hr4; subst. f_equal. unfold loadMore.
  destruct (handler_outcome st) as [[e He]|(r & new & _ & _ & Hx)].
  - now rewrite !He.
  - now rewrite !Hx.
Qed.

End WithFetch.

Lemma handleNextPosts_throw_keeps_cells_witness :
  listing_at [summary "p0" "Zero"] (Some "c1")
  = listing_at [summary "p0" "Zero"] (Some "c1").
Proof.
  exact (HomePageFacts.handleNextPosts_throw_keeps_cells broken_page
           (listing_at [summary "p0" "Zero"] (Some "c1"))
           (listing_at [summary "p0" "Zero"] (Some "c1"))
           (listing_at [summary "p0" "Zero"] (Some "c1"))
           (TypeError "Cannot read property 'title' of undefined")
           eq_refl).
Defined.

Lemma malformed_post_rejects_page_witness :
  loadMore broken_page (listing_at [summary "p0" "Zero"] (Some "c1"))
  = (listing_at [summary "p0" "Zero"] (Some "c1"),
     inl (TypeError "Cannot read property 'title' of undefined")).
Proof.
  apply (malformed_post_rejects_page broken_page
           (listing_at [summary "p0" "Zero"] (Some "c1"))
           {| results := Some [raw "p1" "Um"; raw_broken];
              next_page := Some "c2" |}
           [raw "p1" "Um"; raw_broken] eq_refl eq_refl).
  apply Exists_cons_tl. apply Exists_cons_hd. reflexivity.
Defined.

Lemma listing_after_loads_witness :
  loadMore_times two_pages 2 (Home_init (HomeServer.getStaticProps first_listing))
  = listing_at
      (map summary_of [doc_c; doc_b; doc_a]
       ++ [summary "p1" "Um"; summary "p2" "Dois"; summary "p3" "Tres"])
      None.
Proof.
  apply (listing_after_loads two_pages first_listing [page_one; page_two]
           [[summary "p1" "Um"; summary "p2" "Dois"]; [summary "p3" "Tres"]]).
  - simpl. repeat split.
  - repeat constructor.
Defined.

Lemma first_page_is_kept_witness :
  exists more,
    [summary "p0" "Zero"; summary "p1" "Um"; summary "p2" "Dois"]
    = [summary "p0" "Zero"] ++ more.
Proof.
  apply (first_page_is_kept two_pages
           (listing_at [summary "p0" "Zero"] (Some "c1"))
           [Click; Settle]
           {| cells := listing_at [summary "p0" "Zero"; summary "p1" "Um";
                                   summary "p2" "Dois"] (Some "c2");
              in_flight := [] |}).
  apply run_step
    with (pg' := {| cells := listing_at [summary "p0" "Zero"] (Some "c1");
                    in_flight := [listing_at [summary "p0" "Zero"] (Some "c1")] |}).
  - exact (step_click two_pages
             {| cells := listing_at [summary "p0" "Zero"] (Some "c1");
                in_flight := [] |} eq_refl).
  - eapply run_step; [|apply run_done].
    exact (step_settle two_pages
             {| cells := listing_at [summary "p0" "Zero"] (Some "c1");
                in_flight := [listing_at [summary "p0" "Zero"] (Some "c1")] |}
             [] [] (listing_at [summary "p0" "Zero"] (Some "c1")) eq_refl).
Defined.

Lemma requests_carry_cursor_witness :
  Forall (fun render =>
            exists c, nextPage render = Some c /\ c <> "" /\
                      fetch_url (nextPage render) = c)
         [listing_at [] (Some "c1")].
Proof.
  apply (requests_carry_cursor two_pages (listing_at [] (Some "c1")) [Click]
           {| cells := listing_at [] (Some "c1");
              in_flight := [listing_at [] (Some "c1")] |}).
  eapply run_step; [|apply run_done].
  exact (step_click two_pages
           {| cells := listing_at [] (Some "c1"); in_flight := [] |} eq_refl).
Defined.

Lemma double_click_same_as_one_witness :
  {| cells := listing_at [summary "p1" "Um"; summary "p2" "Dois"] (Some "c2");
     in_flight := [] |}
  = {| cells := fst (loadMore two_pages (listing_at [] (Some "c1")));
       in_flight := [] |}.
Proof.
  apply (double_click_same_as_one two_pages (listing_at [] (Some "c1"))).
  apply run_step
    with (pg' := {| cells := listing_at [] (Some "c1");
                    in_flight := [listing_at [] (Some "c1")] |}).
  { exact (step_click two_pages
             {| cells := listing_at [] (Some "c1"); in_flight := [] |}
             eq_refl). }
  apply run_step
    with (pg' := {| cells := listing_at [] (Some "c1");
                    in_flight := [listing_at [] (Some "c1");
                                  listing_at [] (Some "c1")] |}).
  { exact (step_click two_pages
             {| cells := listing_at [] (Some "c1");
                in_flight := [listing_at [] (Some "c1")] |} eq_refl). }
  apply run_step
    with (pg' := {| cells := listing_at [summary "p1" "Um"; summary "p2" "Dois"]
                               (Some "c2");
                    in_flight := [listing_at [] (Some "c1")] |}).
  { exact (step_settle two_pages
             {| cells := listing_at [] (Some "c1");
                in_flight := [listing_at [] (Some "c1");
                              listing_at [] (Some "c1")] |}
             [listing_at [] (Some "c1")] [] (listing_at [] (Some "c1"))
             eq_refl). }
  eapply run_step; [|apply run_done].
  exact (step_settle two_pages
           {| cells := listing_at [summary "p1" "Um"; summary "p2" "Dois"]
                         (Some "c2");
              in_flight := [listing_at [] (Some "c1")] |}
           [] [] (listing_at [] (Some "c1")) eq_refl).
Defined.

End HomeFlowFacts.
